(** * chengji.c: score-to-grade classifier

    A shallow embedding of [src/chengji.c] and the properties of its
    classifier [getnum] and of its [main] function.

    - C [int] values are embedded as [Z]; [getnum] only compares its
      argument against literals, so no arithmetic can wrap around and the
      embedding is stated on all of [Z] (the 32-bit range is a subset).
    - The enumeration [grdle] is an inductive type; [grdle_value] gives the
      integer value C assigns to each enumeration constant.
    - [main] performs I/O: it is embedded in a small state monad over a
      [world] holding the outcome of the [%d] conversion on standard input,
      the content of the uninitialised stack slot of [i], and the bytes
      written to standard output so far. *)

From Stdlib Require Import ZArith List Lia Bool Ascii String.
Import ListNotations.
Open Scope Z_scope.

(* ===================================================================== *)
(** * Data model *)
(* ===================================================================== *)

(** [typedef enum { A, B, C, D, E } grdle;]  (chengji.c, lines 3-10) *)
Inductive grdle : Set := A | B | C | D | E.

(** The integer value of each enumeration constant: the first one is 0 and
    each next one is one more than its predecessor. *)
Definition grdle_value (g : grdle) : Z :=
  match g with
  | A => 0
  | B => 1
  | C => 2
  | D => 3
  | E => 4
  end.

(** The identifier of each enumeration constant, as one character. *)
Definition grdle_name (g : grdle) : ascii :=
  match g with
  | A => "A"
  | B => "B"
  | C => "C"
  | D => "D"
  | E => "E"
  end%char.

(** The five labels, in declaration order. *)
Definition all_labels : list grdle := [A; B; C; D; E].

(** Range of the C type [int] on the usual 32-bit targets. *)
Module CInt.
Definition INT_MIN : Z := - 2 ^ 31.
Definition INT_MAX : Z := 2 ^ 31 - 1.
Definition in_range (z : Z) : bool := (INT_MIN <=? z) && (z <=? INT_MAX).
End CInt.

(* ===================================================================== *)
(** * The classifier *)
(* ===================================================================== *)

(** [grdle getnum(int num)]  (chengji.c, lines 12-34).  Each branch of the
    [if] / [else if] chain returns; [&&] is C's short-circuit conjunction,
    which on side-effect-free operands is [andb]. *)
Definition getnum (num : Z) : grdle :=
  if num >=? 90 then A
  else if (num >=? 80) && (num <? 90) then B
  else if (num >=? 70) && (num <? 80) then C
  else if (num >=? 60) && (num <? 70) then D
  else E.

(** ** The cascade with its comparisons counted

    The same function body, instrumented: every integer comparison that is
    evaluated adds one tick.  C evaluates the right operand of [&&] only
    when the left one is true, and evaluates the condition of an
    [else if] only when all earlier conditions were false. *)
Module Counted.

Definition counted (T : Type) : Type := (T * nat)%type.

Definition ret {T : Type} (x : T) : counted T := (x, 0%nat).

Definition bind {T U : Type} (c : counted T) (k : T -> counted U) : counted U :=
  let (x, n) := c in
  let (y, m) := k x in
  (y, (n + m)%nat).

(** [a >= b] and [a < b] on [int]: one comparison each. *)
Definition cmp_ge (a b : Z) : counted bool := (a >=? b, 1%nat).
Definition cmp_lt (a b : Z) : counted bool := (a <? b, 1%nat).

(** [l && r]: [r] runs only when [l] is true. *)
Definition and_then (l r : counted bool) : counted bool :=
  bind l (fun b => if b then r else ret false).

(** [if (c) t else e]. *)
Definition ifte {T : Type} (c : counted bool) (t e : counted T) : counted T :=
  bind c (fun b => if b then t else e).

Definition value {T : Type} (c : counted T) : T := fst c.
Definition ticks {T : Type} (c : counted T) : nat := snd c.

End Counted.

Definition getnum_counted (num : Z) : Counted.counted grdle :=
  let ge := Counted.cmp_ge in
  let lt := Counted.cmp_lt in
  Counted.ifte (ge num 90) (Counted.ret A)
 (Counted.ifte (Counted.and_then (ge num 80) (lt num 90)) (Counted.ret B)
 (Counted.ifte (Counted.and_then (ge num 70) (lt num 80)) (Counted.ret C)
 (Counted.ifte (Counted.and_then (ge num 60) (lt num 70)) (Counted.ret D)
 (Counted.ret E)))).

(** Number of comparisons the cascade evaluates before it returns a given
    label: one for [A]; for the other labels one per failed earlier
    condition (its left operand only) and two for the condition that
    holds; four failed left operands for [E]. *)
Definition comparisons_of (g : grdle) : nat :=
  match g with
  | A => 1
  | B => 3
  | C => 4
  | D => 5
  | E => 4
  end.

(* ===================================================================== *)
(** * What the specification says *)
(* ===================================================================== *)

(** The table of section 4.1 of the specification, one row per band, in
    the order the table lists them. *)
Definition grade_table : list ((Z -> bool) * grdle) :=
  [ (fun score => 90 <=? score, A);
    (fun score => (80 <=? score) && (score <? 90), B);
    (fun score => (70 <=? score) && (score <? 80), C);
    (fun score => (60 <=? score) && (score <? 70), D);
    (fun score => score <? 60, E) ].

(** "Evaluated top-down, first match wins." *)
Fixpoint first_match (rows : list ((Z -> bool) * grdle)) (score : Z) : option grdle :=
  match rows with
  | [] => None
  | (band, label) :: rest => if band score then Some label else first_match rest score
  end.

Definition grade_of (score : Z) : option grdle := first_match grade_table score.

(** The cascade that tests lower bounds only. *)
Definition getnum_lower_bounds (num : Z) : grdle :=
  if num >=? 90 then A
  else if num >=? 80 then B
  else if num >=? 70 then C
  else if num >=? 60 then D
  else E.

(* ===================================================================== *)
(** * The program around the classifier *)
(* ===================================================================== *)

(** What [main] can observe and change.
    - [w_scan]: the outcome of the [%d] conversion that [main]'s one call of
      [scanf] performs on standard input: [Some n] when an integer [n] is
      parsed and stored, [None] on a matching failure or end of input.
    - [w_slot]: what the storage of the local [i] holds before anything is
      stored into it ([i] is declared without an initialiser).
    - [w_out]: the bytes written to standard output so far. *)
Record world : Type := mkWorld {
  w_scan : option Z;
  w_slot : Z;
  w_out  : string
}.

Definition wf_world (w : world) : bool :=
  CInt.in_range (w_slot w) &&
  match w_scan w with
  | Some n => CInt.in_range n
  | None => true
  end.

Module IO.

Definition IO (T : Type) : Type := world -> T * world.

Definition ret {T : Type} (x : T) : IO T := fun w => (x, w).

Definition bind {T U : Type} (c : IO T) (k : T -> IO U) : IO U :=
  fun w => let (x, w') := c w in k x w'.

Definition result {T : Type} (c : IO T) (w : world) : T := fst (c w).
Definition after {T : Type} (c : IO T) (w : world) : world := snd (c w).

End IO.

Declare Scope io_scope.
Delimit Scope io_scope with io.
Notation "x <- c ;; k" := (IO.bind c (fun x => k))
  (at level 61, c at next level, right associativity) : io_scope.
Notation "c ;; k" := (IO.bind c (fun _ => k))
  (at level 61, right associativity) : io_scope.

(** [printf] with a format that holds no conversion specification: the
    format's bytes are appended to standard output.  [main] ignores the
    value [printf] returns. *)
Definition printf (format : string) : IO.IO unit :=
  fun w => (tt, mkWorld (w_scan w) (w_slot w) (w_out w ++ format)).

(** [int i;]: the variable starts with whatever its storage holds. *)
Definition declare_int : IO.IO Z :=
  fun w => (w_slot w, w).

(** [scanf("%d", &i)]: stores the parsed integer into [i], and leaves [i]
    as it was when nothing is parsed.  The result is the content of [i]
    after the call; [main] ignores the value [scanf] returns. *)
Definition scanf_d (i : Z) : IO.IO Z :=
  fun w => (match w_scan w with Some n => n | None => i end, w).

(** A call of [getnum]: the body reads only its parameter, writes no
    object outside its frame and calls no function. *)
Definition call_getnum (num : Z) : IO.IO grdle := IO.ret (getnum num).

(** The format of the first [printf]: the UTF-8 bytes of the six-character
    prompt U+8BF7 U+8F93 U+5165 U+6210 U+7EE9 U+FF1A, as they stand in the
    source file. *)
Definition prompt : string :=
  string_of_list_ascii
    (map ascii_of_nat
       [232; 175; 183;  232; 190; 147;  229; 133; 165;
        230; 136; 144;  231; 187; 169;  239; 188; 154]%nat).

(** [int main()]  (chengji.c, lines 36-61). *)
Definition main : IO.IO Z :=
  (i <- declare_int ;;
   printf prompt ;;
   i <- scanf_d i ;;
   g <- call_getnum i ;;
   match g with
   | A => printf "A"
   | B => printf "B"
   | C => printf "C"
   | D => printf "D"
   | _ => printf "E"
   end ;;
   IO.ret 0)%io.

(** The integer that [main] classifies: the one parsed, or else what the
    storage of [i] held. *)
Definition classified (w : world) : Z :=
  match w_scan w with
  | Some n => n
  | None => w_slot w
  end.

(** Standard output of a whole run started with nothing written yet. *)
Definition run_stdout (scan : option Z) (slot : Z) : string :=
  w_out (IO.after main (mkWorld scan slot "")).

Definition run_exit_code (scan : option Z) (slot : Z) : Z :=
  IO.result main (mkWorld scan slot "").

(* ===================================================================== *)
(** * Properties of the classifier *)
(* ===================================================================== *)

(** Case analysis on every comparison of a cascade, closing the branches
    whose bounds contradict each other. *)
Ltac split_comparisons :=
  repeat match goal with
         | |- context [ ?a >=? ?b ] => destruct (Z.geb_spec a b)
         | |- context [ ?a <=? ?b ] => destruct (Z.leb_spec a b)
         | |- context [ ?a <? ?b ] => destruct (Z.ltb_spec a b)
         end;
  cbn [andb fst snd]; try reflexivity; try lia.

Create HintDb grade discriminated.

Lemma all_labels_complete (g : grdle) : In g all_labels.
Proof. destruct g; cbn; tauto. Qed.

Lemma all_labels_NoDup : NoDup all_labels.
Proof.
  unfold all_labels.
  repeat (constructor; [cbn; intuition discriminate |]).
  constructor.
Qed.

Lemma grdle_value_inj (g h : grdle) : grdle_value g = grdle_value h -> g = h.
Proof. destruct g, h; cbn; intros Hv; congruence || discriminate Hv. Qed.

(** The band of the argument decides the label: exactly one of five cases. *)
Lemma getnum_cases (num : Z) :
  (90 <= num /\ getnum num = A) \/
  (80 <= num < 90 /\ getnum num = B) \/
  (70 <= num < 80 /\ getnum num = C) \/
  (60 <= num < 70 /\ getnum num = D) \/
  (num < 60 /\ getnum num = E).
Proof.
  unfold getnum.
  destruct (Z.geb_spec num 90); [left; split; [lia | reflexivity] | right].
  destruct (Z.geb_spec num 80); cbn [andb].
  { destruct (Z.ltb_spec num 90); [| lia]. left; split; [lia | reflexivity]. }
  right.
  destruct (Z.geb_spec num 70); cbn [andb].
  { destruct (Z.ltb_spec num 80); [| lia]. left; split; [lia | reflexivity]. }
  right.
  destruct (Z.geb_spec num 60); cbn [andb].
  { destruct (Z.ltb_spec num 70); [| lia]. left; split; [lia | reflexivity]. }
  right. split; [lia | reflexivity].
Qed.

(** Both directions of a label-band equivalence, from the band of [num]. *)
Ltac by_band num :=
  let H := fresh "H" in
  destruct (getnum_cases num) as [H|[H|[H|[H|H]]]];
  destruct H as [? ->];
  split; (reflexivity || discriminate || lia).

Lemma getnum_A (num : Z) : getnum num = A <-> 90 <= num.
Proof. by_band num. Qed.

Lemma getnum_B (num : Z) : getnum num = B <-> 80 <= num < 90.
Proof. by_band num. Qed.

Lemma getnum_C (num : Z) : getnum num = C <-> 70 <= num < 80.
Proof. by_band num. Qed.

Lemma getnum_D (num : Z) : getnum num = D <-> 60 <= num < 70.
Proof. by_band num. Qed.

Lemma getnum_E (num : Z) : getnum num = E <-> num < 60.
Proof. by_band num. Qed.

#[local] Hint Resolve all_labels_complete all_labels_NoDup : grade.

(** The cascade agrees with the table lookup of the specification. *)
Lemma grade_of_getnum (score : Z) : grade_of score = Some (getnum score).
Proof.
  unfold grade_of, grade_table, first_match, getnum.
  split_comparisons.
Qed.

(** The cascade and its instrumented copy compute the same label. *)
Lemma getnum_counted_value (num : Z) :
  Counted.value (getnum_counted num) = getnum num.
Proof.
  unfold getnum_counted, getnum, Counted.value, Counted.ifte, Counted.and_then,
    Counted.bind, Counted.cmp_ge, Counted.cmp_lt, Counted.ret.
  split_comparisons.
Qed.

Lemma getnum_counted_ticks (num : Z) :
  Counted.ticks (getnum_counted num) = comparisons_of (getnum num).
Proof.
  unfold getnum_counted, getnum, Counted.ticks, Counted.ifte, Counted.and_then,
    Counted.bind, Counted.cmp_ge, Counted.cmp_lt, Counted.ret.
  split_comparisons.
Qed.

(* ===================================================================== *)
(** * Properties of the program *)
(* ===================================================================== *)

Lemma string_append_assoc (s t u : string) :
  ((s ++ t) ++ u)%string = (s ++ (t ++ u))%string.
Proof.
  induction s as [| c s IH]; cbn; [reflexivity | now rewrite IH].
Qed.

(** What the [switch] of [main] prints for a label. *)
Lemma switch_prints (g : grdle) (w : world) :
  match g with
  | A => printf "A"
  | B => printf "B"
  | C => printf "C"
  | D => printf "D"
  | _ => printf "E"
  end w = printf (String (grdle_name g) EmptyString) w.
Proof. destruct g; reflexivity. Qed.

(** One run of [main], start to end. *)
Lemma main_run (w : world) :
  main w =
  (0, mkWorld (w_scan w) (w_slot w)
        (w_out w ++ prompt ++ String (grdle_name (getnum (classified w))) EmptyString)).
Proof.
  unfold main, IO.bind, declare_int, scanf_d, call_getnum, IO.ret.
  cbn [printf w_scan w_slot w_out].
  fold (classified w).
  rewrite switch_prints.
  unfold printf; cbn [w_scan w_slot w_out].
  rewrite string_append_assoc.
  reflexivity.
Qed.

(** Two concrete runs: 85 is typed in; nothing can be parsed and the
    storage of [i] happens to hold 95. *)
Example run_85 :
  run_stdout (Some 85) 0 = (prompt ++ "B")%string /\ run_exit_code (Some 85) 0 = 0.
Proof. split; reflexivity. Qed.

Example run_nothing_parsed :
  run_stdout None 95 = (prompt ++ "A")%string /\ run_exit_code None 95 = 0.
Proof. split; reflexivity. Qed.

Lemma main_preserves_wf (w : world) :
  wf_world w = true -> wf_world (IO.after main w) = true.
Proof.
  intros Hwf. unfold IO.after. rewrite main_run. exact Hwf.
Qed.

(** The prompt is eighteen bytes long and holds no [%], so [printf] copies
    it byte for byte. *)
Lemma prompt_has_no_conversion :
  String.length prompt = 18%nat /\
  ~ In "%"%char (list_ascii_of_string prompt).
Proof.
  split; [reflexivity |].
  cbv. intuition discriminate.
Qed.

(* ===================================================================== *)
(** * The claims *)
(* ===================================================================== *)

(** C1.  For every integer [s], [getnum s] is the label of the first row of
    the specification's table, read top-down, whose band holds [s]: [A]
    exactly when [s >= 90], [B] exactly when [80 <= s < 90], [C] exactly
    when [70 <= s < 80], [D] exactly when [60 <= s < 70], and [E]
    otherwise, that is exactly when [s < 60]. *)
Theorem getnum_selects_first_matching_band (s : Z) :
  grade_of s = Some (getnum s) /\
  (getnum s = A <-> 90 <= s) /\
  (getnum s = B <-> 80 <= s < 90) /\
  (getnum s = C <-> 70 <= s < 80) /\
  (getnum s = D <-> 60 <= s < 70) /\
  (getnum s = E <-> s < 60).
Proof.
  split; [apply grade_of_getnum |].
  split; [apply getnum_A |].
  split; [apply getnum_B |].
  split; [apply getnum_C |].
  split; [apply getnum_D | apply getnum_E].
Qed.

(** C2.  Every integer below 60, negative ones and zero included, is
    classified [E]. *)
Theorem getnum_below_60_is_E (s : Z) : s < 60 -> getnum s = E.
Proof. intros Hs. apply getnum_E. exact Hs. Qed.

Lemma getnum_below_60_is_E_witness :
  (-7 < 60 /\ getnum (-7) = E) /\ (0 < 60 /\ getnum 0 = E).
Proof.
  split; (split; [reflexivity | apply getnum_below_60_is_E; reflexivity]).
Defined.

(** C3.  The literal boundary scenarios: 90 gives [A], 89 and 80 give [B],
    79 and 70 give [C], 69 and 60 give [D], 59 and -5 give [E], and 1000
    gives [A]. *)
Theorem getnum_boundary_scenarios :
  getnum 90 = A /\ getnum 89 = B /\ getnum 80 = B /\ getnum 79 = C /\
  getnum 70 = C /\ getnum 69 = D /\ getnum 60 = D /\ getnum 59 = E /\
  getnum (-5) = E /\ getnum 1000 = A.
Proof. repeat split; reflexivity. Qed.

(** C4.  [getnum] is total and has no error result: for every integer
    there is exactly one label among the five distinct labels [A], [B],
    [C], [D], [E] that it returns, and the table lookup of the
    specification never falls off the table. *)
Theorem getnum_total_one_label (num : Z) :
  (exists! g : grdle, In g all_labels /\ getnum num = g) /\
  NoDup all_labels /\
  grade_of num <> None.
Proof.
  split; [| split]; auto with grade.
  - exists (getnum num). split; auto with grade.
    intros g [_ Hg]. exact Hg.
  - rewrite grade_of_getnum. discriminate.
Qed.

(** C5.  [getnum] is deterministic and pure: two calls with the same
    argument, made in any two states of the world, return the same label,
    that label is a function of the argument alone, and neither call
    changes the world. *)
Theorem getnum_deterministic_pure (num : Z) (w1 w2 : world) :
  IO.result (call_getnum num) w1 = IO.result (call_getnum num) w2 /\
  IO.result (call_getnum num) w1 = getnum num /\
  IO.after (call_getnum num) w1 = w1 /\
  IO.after (call_getnum num) w2 = w2.
Proof. repeat split. Qed.

(** C6.  For every integer [n] read from standard input, the program
    appends to standard output the prompt followed by exactly one
    character, the name of the label [getnum n], which is one of [A], [B],
    [C], [D], [E]; nothing follows it, so no newline does.  Started with
    nothing written, standard output is the prompt and that character. *)
Theorem main_prints_prompt_then_label (n slot : Z) (out0 : string) :
  let c := grdle_name (getnum n) in
  w_out (IO.after main (mkWorld (Some n) slot out0))
    = (out0 ++ prompt ++ String c EmptyString)%string /\
  run_stdout (Some n) slot = (prompt ++ String c EmptyString)%string /\
  In c ["A"; "B"; "C"; "D"; "E"]%char.
Proof.
  intros c. unfold run_stdout, IO.after. rewrite !main_run.
  cbn [snd w_out w_scan classified].
  repeat split.
  subst c. destruct (getnum n); cbn; tauto.
Qed.

(** C7.  Every run of [main] returns exit code 0, whatever standard input
    holds, also when no integer is parsed from it. *)
Theorem main_exit_code_zero (w : world) :
  IO.result main w = 0 /\
  run_exit_code None (w_slot w) = 0.
Proof.
  unfold run_exit_code, IO.result. rewrite !main_run. split; reflexivity.
Qed.

(** C8.  [getnum] terminates on every integer: it returns a label after
    at least one and at most five comparisons, with no loop or recursion. *)
Theorem getnum_terminates (num : Z) :
  exists g : grdle,
    getnum num = g /\
    Counted.value (getnum_counted num) = g /\
    (1 <= Counted.ticks (getnum_counted num) <= 5)%nat.
Proof.
  exists (getnum num). split; [reflexivity |]. split.
  - apply getnum_counted_value.
  - rewrite getnum_counted_ticks. destruct (getnum num); cbn; lia.
Qed.

(** C9.  [getnum] is antitone in the grade rank: with [A < B < C < D < E]
    ranked by the values of the enumeration constants, [s1 <= s2] implies
    that the rank of [getnum s1] is at least the rank of [getnum s2]. *)
Theorem getnum_antitone (s1 s2 : Z) :
  s1 <= s2 -> grdle_value (getnum s1) >= grdle_value (getnum s2).
Proof.
  intros Hle.
  destruct (getnum_cases s1) as [H1|[H1|[H1|[H1|H1]]]];
    destruct H1 as [Hb1 ->];
    destruct (getnum_cases s2) as [H2|[H2|[H2|[H2|H2]]]];
    destruct H2 as [Hb2 ->];
    cbn [grdle_value]; lia.
Qed.

Lemma getnum_antitone_witness :
  59 <= 90 /\ grdle_value (getnum 59) >= grdle_value (getnum 90).
Proof.
  split; [discriminate | apply getnum_antitone; discriminate].
Defined.

(** C10.  The upper-bound tests of the cascade are redundant: [getnum]
    equals, on every integer, the cascade that tests the lower bounds 90,
    80, 70 and 60 in this order and nothing else. *)
Theorem getnum_upper_bounds_redundant (num : Z) :
  getnum num = getnum_lower_bounds num.
Proof.
  unfold getnum, getnum_lower_bounds. split_comparisons.
Qed.

(* ===================================================================== *)
(** * Further properties of [getnum] *)
(* ===================================================================== *)

(** Case analysis on the bands of two scores at once. *)
Ltac by_two_bands s t :=
  let H1 := fresh "H" in
  let H2 := fresh "H" in
  destruct (getnum_cases s) as [H1|[H1|[H1|[H1|H1]]]];
  destruct H1 as [? ->];
  destruct (getnum_cases t) as [H2|[H2|[H2|[H2|H2]]]];
  destruct H2 as [? ->].

(** X1.  The value of the label is an arithmetic function of the score:
    nine minus the tens of the score, clamped to the range 0..4 of the
    enumeration.  A table indexed by [num / 10] computes the same grade. *)
Theorem getnum_value_closed_form (num : Z) :
  grdle_value (getnum num) = Z.max 0 (Z.min 4 (9 - num / 10)).
Proof.
  pose proof (Z.div_mod num 10 ltac:(discriminate)) as Hdm.
  pose proof (Z.mod_pos_bound num 10 ltac:(reflexivity)) as Hr.
  destruct (getnum_cases num) as [H|[H|[H|[H|H]]]];
    destruct H as [Hb ->]; cbn [grdle_value]; lia.
Qed.

(** X2.  No [return] of the cascade is dead: each of the five labels is
    the grade of some score between 0 and 100. *)
Theorem getnum_reaches_every_label (g : grdle) :
  exists num : Z, 0 <= num <= 100 /\ getnum num = g.
Proof.
  destruct g;
    [exists 95 | exists 85 | exists 75 | exists 65 | exists 30];
    (split; [lia | reflexivity]).
Qed.

(** X3.  The scores of one grade form an interval: a score between two
    scores that get the same grade gets that grade too. *)
Theorem getnum_bands_convex (s1 t s2 : Z) :
  s1 <= t -> t <= s2 -> getnum s1 = getnum s2 -> getnum t = getnum s1.
Proof.
  intros H1t Ht2 Heq.
  destruct (getnum_cases t) as [Ht|[Ht|[Ht|[Ht|Ht]]]]; destruct Ht as [? ->];
    revert Heq; by_two_bands s1 s2;
    intros Heq; first [reflexivity | discriminate Heq | exfalso; lia].
Qed.

Lemma getnum_bands_convex_witness :
  (71 <= 75 /\ 75 <= 79 /\ getnum 71 = getnum 79) /\ getnum 75 = getnum 71.
Proof.
  split.
  - repeat split; discriminate.
  - apply (getnum_bands_convex 71 75 79); [discriminate | discriminate | reflexivity].
Defined.

(** X4.  Between two consecutive scores the grade changes exactly at the
    four thresholds, that is from 59 to 60, 69 to 70, 79 to 80 and 89 to
    90, and one more point never lifts the grade by more than one step. *)
Theorem getnum_changes_at_thresholds (s : Z) :
  (getnum (s + 1) <> getnum s <-> s = 59 \/ s = 69 \/ s = 79 \/ s = 89) /\
  0 <= grdle_value (getnum s) - grdle_value (getnum (s + 1)) <= 1.
Proof.
  by_two_bands s (s + 1); cbn [grdle_value];
    (split;
     [ split; [ intros Hne; first [ lia | congruence ]
              | intros Hs; first [ discriminate | exfalso; lia ] ]
     | lia ]).
Qed.

(** X5.  The number of comparisons [getnum] evaluates, band by band: one
    from 90 up, three from 80 to 89, four from 70 to 79, five from 60 to
    69 (the worst case) and four below 60. *)
Theorem getnum_comparisons_per_band (num : Z) :
  let n := Counted.ticks (getnum_counted num) in
  (n = 1%nat <-> 90 <= num) /\
  (n = 3%nat <-> 80 <= num < 90) /\
  (n = 4%nat <-> 70 <= num < 80 \/ num < 60) /\
  (n = 5%nat <-> 60 <= num < 70).
Proof.
  cbv zeta. rewrite getnum_counted_ticks.
  destruct (getnum_cases num) as [H|[H|[H|[H|H]]]];
    destruct H as [Hb ->]; cbn [comparisons_of];
    repeat split; intros; first [ lia | discriminate | reflexivity ].
Qed.

(* ===================================================================== *)
(** * Further properties of [main] *)
(* ===================================================================== *)

Lemma string_append_cancel_l (s t u : string) :
  (s ++ t)%string = (s ++ u)%string -> t = u.
Proof.
  induction s as [| c s IH]; cbn; intros Heq; [exact Heq |].
  injection Heq as Heq. apply IH, Heq.
Qed.

Lemma string_length_append (s t : string) :
  String.length (s ++ t) = (String.length s + String.length t)%nat.
Proof.
  induction s as [| c s IH]; cbn; [reflexivity | now rewrite IH].
Qed.

Lemma grdle_name_inj (g h : grdle) : grdle_name g = grdle_name h -> g = h.
Proof. destruct g, h; cbn; intros Hn; first [reflexivity | discriminate Hn]. Qed.

(** Standard output of a whole run in which [n] is parsed. *)
Lemma run_stdout_parsed (n slot : Z) :
  run_stdout (Some n) slot
  = (prompt ++ String (grdle_name (getnum n)) EmptyString)%string.
Proof. unfold run_stdout, IO.after. rewrite main_run. reflexivity. Qed.

Lemma run_stdout_label (n slot : Z) (g : grdle) :
  run_stdout (Some n) slot = (prompt ++ String (grdle_name g) EmptyString)%string
  <-> getnum n = g.
Proof.
  rewrite run_stdout_parsed. split.
  - intros Heq. apply string_append_cancel_l in Heq.
    injection Heq as Heq. apply grdle_name_inj, Heq.
  - intros ->. reflexivity.
Qed.

(** X6.  End to end, the text the program writes is decided by the band of
    the score that was read: the prompt and then [A] exactly for scores
    from 90 up, [B] for 80 to 89, [C] for 70 to 79, [D] for 60 to 69, and
    [E], printed by the [default] case of the [switch], exactly for scores
    below 60. *)
Theorem main_output_by_band (n slot : Z) :
  (run_stdout (Some n) slot = (prompt ++ "A")%string <-> 90 <= n) /\
  (run_stdout (Some n) slot = (prompt ++ "B")%string <-> 80 <= n < 90) /\
  (run_stdout (Some n) slot = (prompt ++ "C")%string <-> 70 <= n < 80) /\
  (run_stdout (Some n) slot = (prompt ++ "D")%string <-> 60 <= n < 70) /\
  (run_stdout (Some n) slot = (prompt ++ "E")%string <-> n < 60).
Proof.
  split; [| split; [| split; [| split]]].
  - rewrite (run_stdout_label n slot A). apply getnum_A.
  - rewrite (run_stdout_label n slot B). apply getnum_B.
  - rewrite (run_stdout_label n slot C). apply getnum_C.
  - rewrite (run_stdout_label n slot D). apply getnum_D.
  - rewrite (run_stdout_label n slot E). apply getnum_E.
Qed.

(** X7.  The output tells the grade and nothing more of the score: two
    runs write the same text exactly when the two scores read get the same
    grade, whatever the storage of [i] held before. *)
Theorem main_same_output_iff_same_grade (n1 n2 slot1 slot2 : Z) :
  run_stdout (Some n1) slot1 = run_stdout (Some n2) slot2
  <-> getnum n1 = getnum n2.
Proof.
  rewrite (run_stdout_parsed n2 slot2). apply run_stdout_label.
Qed.

(** X8.  When no integer can be parsed, [main] reports no error: [scanf]
    stores nothing, [i] keeps what its storage held, and the program
    writes the prompt followed by the grade of that leftover value, then
    returns 0.  The value [scanf] returns is never looked at, so the run
    writes what a run that parses this very value writes. *)
Theorem main_nothing_parsed (slot slot' : Z) (out0 : string) :
  main (mkWorld None slot out0)
  = (0, mkWorld None slot
          (out0 ++ prompt ++ String (grdle_name (getnum slot)) EmptyString)) /\
  run_stdout None slot = run_stdout (Some slot) slot'.
Proof.
  split; [rewrite main_run; reflexivity |].
  unfold run_stdout, IO.after. rewrite !main_run. reflexivity.
Qed.

(** X9.  Every run, whether an integer is parsed or not, adds exactly
    nineteen bytes to standard output, the eighteen of the prompt and the
    grade character, and keeps what was written before as a prefix. *)
Theorem main_writes_19_bytes (w : world) :
  String.length (w_out (IO.after main w)) = (String.length (w_out w) + 19)%nat /\
  String.prefix (w_out w) (w_out (IO.after main w)) = true.
Proof.
  unfold IO.after. rewrite main_run. cbn [snd w_out]. split.
  - rewrite !string_length_append. reflexivity.
  - generalize (prompt ++ String (grdle_name (getnum (classified w))) EmptyString)%string.
    intros t. induction (w_out w) as [| c s IH]; cbn.
    + destruct t; reflexivity.
    + destruct (ascii_dec c c) as [_ | Hne]; [exact IH | now elim Hne].
Qed.
